(** * ITU-R P.837 (itur/models/itu837.py): shallow embedding and claims

    Numbers.  numpy float64 values are modelled by [xr]: a real number
    ([Fin]), the two infinities and NaN.  The special values follow IEEE 754
    (division of a non-zero number by zero gives an infinity, [0/0], [inf-inf]
    and [0*inf] give NaN, [exp(-inf) = 0], [log 0 = -inf], comparisons with NaN
    are false).  Finite arithmetic is exact real arithmetic: rounding,
    overflow and the sign of zero are not modelled (zeros are [+0]).

    Arrays.  A numpy array is its shape and its flat (C-order) data.  Every
    array of the model methods has the shape of [lat], so broadcasting is
    modelled only for equal shapes and for a scalar operand.

    Effects.  The model methods run in a state and error monad: the state
    records the calls to the ufuncs [np.exp], [np.log] and [np.sqrt] with their
    argument arrays, errors are Python exceptions. *)

From Stdlib Require Import PrimFloat.
From Stdlib Require FloatOps SpecFloat.
From Stdlib Require Import Reals Lra Lia Psatz String Ascii ZArith NArith Bool List.
Import ListNotations.
Open Scope R_scope.

(** ** Numbers *)

Inductive xr : Type :=
| Fin (r : R)
| PInf
| NInf
| NaN.

(** Three-way sign of a real. *)
Definition sign3 (r : R) : comparison :=
  match total_order_T r 0 with
  | inleft (left _) => Lt
  | inleft (right _) => Eq
  | inright _ => Gt
  end.

Definition xneg (x : xr) : xr :=
  match x with
  | Fin a => Fin (- a)
  | PInf => NInf
  | NInf => PInf
  | NaN => NaN
  end.

Definition xadd (x y : xr) : xr :=
  match x, y with
  | NaN, _ | _, NaN => NaN
  | PInf, NInf | NInf, PInf => NaN
  | PInf, _ | _, PInf => PInf
  | NInf, _ | _, NInf => NInf
  | Fin a, Fin b => Fin (a + b)
  end.

Definition xsub (x y : xr) : xr := xadd x (xneg y).

(** An infinity multiplied by a finite [b]. *)
Definition inf_times (pos : bool) (b : R) : xr :=
  match sign3 b with
  | Eq => NaN
  | Gt => if pos then PInf else NInf
  | Lt => if pos then NInf else PInf
  end.

Definition xmul (x y : xr) : xr :=
  match x, y with
  | NaN, _ | _, NaN => NaN
  | PInf, PInf | NInf, NInf => PInf
  | PInf, NInf | NInf, PInf => NInf
  | PInf, Fin b | Fin b, PInf => inf_times true b
  | NInf, Fin b | Fin b, NInf => inf_times false b
  | Fin a, Fin b => Fin (a * b)
  end.

(** An infinity divided by a finite [b]; [b = 0] is [+0]. *)
Definition inf_div (pos : bool) (b : R) : xr :=
  match sign3 b with
  | Lt => if pos then NInf else PInf
  | _ => if pos then PInf else NInf
  end.

Definition xdiv (x y : xr) : xr :=
  match x, y with
  | NaN, _ | _, NaN => NaN
  | (PInf | NInf), (PInf | NInf) => NaN
  | Fin _, (PInf | NInf) => Fin 0
  | PInf, Fin b => inf_div true b
  | NInf, Fin b => inf_div false b
  | Fin a, Fin b =>
      match sign3 b with
      | Eq => match sign3 a with
              | Gt => PInf
              | Lt => NInf
              | Eq => NaN
              end
      | _ => Fin (a / b)
      end
  end.

(** [np.exp] *)
Definition xexp (x : xr) : xr :=
  match x with
  | Fin a => Fin (exp a)
  | PInf => PInf
  | NInf => Fin 0
  | NaN => NaN
  end.

(** [np.log] *)
Definition xlog (x : xr) : xr :=
  match x with
  | Fin a => match sign3 a with
             | Gt => Fin (ln a)
             | Eq => NInf
             | Lt => NaN
             end
  | PInf => PInf
  | NInf | NaN => NaN
  end.

(** [np.sqrt] *)
Definition xsqrt (x : xr) : xr :=
  match x with
  | Fin a => match sign3 a with
             | Lt => NaN
             | _ => Fin (sqrt a)
             end
  | PInf => PInf
  | NInf | NaN => NaN
  end.

(** [x > y]: false as soon as one side is NaN. *)
Definition xgt (x y : xr) : bool :=
  match x, y with
  | NaN, _ | _, NaN => false
  | PInf, PInf | NInf, NInf => false
  | PInf, _ => true
  | _, PInf => false
  | NInf, _ => false
  | _, NInf => true
  | Fin a, Fin b => match sign3 (a - b) with Gt => true | _ => false end
  end.

(** [x <= y]: false as soon as one side is NaN. *)
Definition xle (x y : xr) : bool :=
  match x, y with
  | NaN, _ | _, NaN => false
  | _, _ => negb (xgt x y)
  end.

(** [np.isnan] *)
Definition xisnan (x : xr) : bool :=
  match x with NaN => true | _ => false end.

(** The float literals of the source. *)
Definition zero : xr := Fin 0.
Definition one : xr := Fin 1.

(** ** Python exceptions *)

Inductive exn : Type :=
| ValueError (msg : string)
| NameError (name : string).

(** ** A state and error monad *)

Definition SE (S A : Type) : Type := S -> (exn + A) * S.

Definition ret {S A} (a : A) : SE S A := fun s => (inr a, s).

Definition raise {S A} (e : exn) : SE S A := fun s => (inl e, s).

Definition bind {S A B} (m : SE S A) (k : A -> SE S B) : SE S B :=
  fun s => match m s with
           | (inl e, s') => (inl e, s')
           | (inr a, s') => k a s'
           end.

Declare Scope se_scope.
Notation "x <- m ;; k" := (bind m (fun x => k))
  (at level 61, m at next level, right associativity) : se_scope.
Open Scope se_scope.

(** ** numpy arrays *)

Record arr (A : Type) : Type := mk_arr { shape : list nat; data : list A }.
Arguments mk_arr {A} _ _.
Arguments shape {A} _.
Arguments data {A} _.

Definition size (sh : list nat) : nat := fold_right Nat.mul 1%nat sh.

(** A well-formed array holds [size shape] elements. *)
Definition wf_arr {A} (a : arr A) : bool := Nat.eqb (length (data a)) (size (shape a)).

(** Unary ufuncs and operations with a scalar operand. *)
Definition amap {A B} (f : A -> B) (a : arr A) : arr B :=
  mk_arr (shape a) (map f (data a)).

(** [np.full_like(a, v)]: a scalar broadcast to the shape of [a]. *)
Definition full_like {A B} (a : arr A) (v : B) : arr B := amap (fun _ => v) a.

Definition list_nat_eqb (l1 l2 : list nat) : bool :=
  if list_eq_dec Nat.eq_dec l1 l2 then true else false.

(** Elementwise binary operation on two arrays of the same shape. *)
Definition ew2 {S A B C} (f : A -> B -> C) (a : arr A) (b : arr B) : SE S (arr C) :=
  if list_nat_eqb (shape a) (shape b)
  then ret (mk_arr (shape a) (map (fun '(x, y) => f x y) (combine (data a) (data b))))
  else raise (ValueError "operands could not be broadcast together").

(** [np.where(cond, x, y)] *)
Definition np_where {S A} (cond : arr bool) (x y : arr A) : SE S (arr A) :=
  xy <- ew2 pair x y ;;
  ew2 (fun (c : bool) '(u, v) => if c then u else v) cond xy.

(** [a.reshape(sh)] *)
Definition reshape {S A} (l : list A) (sh : list nat) : SE S (arr A) :=
  if Nat.eqb (length l) (size sh) then ret (mk_arr sh l)
  else raise (ValueError "cannot reshape array").

(** [np.array([lat.ravel(), lon.ravel()]).T] *)
Definition stack_points {S A} (lat lon : arr A) : SE S (list (A * A)) :=
  if Nat.eqb (length (data lat)) (length (data lon))
  then ret (combine (data lat) (data lon))
  else raise (ValueError "setting an array element with a sequence").

(** ** Logged ufuncs *)

Inductive ufunc : Type := UExp | ULog | USqrt.

Definition call : Type := (ufunc * arr xr)%type.

Definition np_ufunc (u : ufunc) (f : xr -> xr) (a : arr xr) : SE (list call) (arr xr) :=
  fun log => (inr (amap f a), log ++ [(u, a)]).

Definition np_exp := np_ufunc UExp xexp.
Definition np_log := np_ufunc ULog xlog.
Definition np_sqrt := np_ufunc USqrt xsqrt.

(** ** The model [_ITU837_6] *)

Section ITU837_6.

(** The bilinear interpolators [self._Pr6], [self._Mt], [self._Beta] built by
    [bilinear_2D_interpolator] of [models.itu1144] (not part of this file) over
    the ESARAIN datasets, evaluated at one (lat, lon) row of their argument.
    Their lazy construction does not change their values and is not modelled. *)
Variables Pr6_f Mt_f Beta_f : xr -> xr -> xr.

Definition interp (f : xr -> xr -> xr) (lat lon : arr xr) : SE (list call) (arr xr) :=
  pts <- stack_points lat lon ;;
  reshape (map (fun '(x, y) => f x y) pts) (shape lat).

Definition Pr6 := interp Pr6_f.
Definition Mt := interp Mt_f.
Definition Beta := interp Beta_f.

Definition c_0079 : xr := Fin (-(79 / 10000)).

(** [_ITU837_6.rain_percentage_probability] *)
Definition rain_percentage_probability (lat_d lon_d : arr xr) : SE (list call) (arr xr) :=
  Pr6v <- Pr6 lat_d lon_d ;;
  Mtv <- Mt lat_d lon_d ;;
  Betav <- Beta lat_d lon_d ;;
  (* Ms = (1 - Beta) * Mt *)
  Ms <- ew2 xmul (amap (xsub one) Betav) Mtv ;;
  (* P0 = Pr6 * (1 - np.exp(-0.0079 * (Ms / Pr6) ) ) *)
  q <- ew2 xdiv Ms Pr6v ;;
  e <- np_exp (amap (xmul c_0079) q) ;;
  ew2 xmul Pr6v (amap (xsub one) e).

(** [computeRp], the closure of [_ITU837_6.rainfall_rate] (it reads [p]). *)
Definition computeRp (p : xr) (P0 Mc Ms : arr xr) : SE (list call) (arr xr) :=
  let a := Fin (109 / 100) in
  s <- ew2 xadd Mc Ms ;;
  b <- ew2 xdiv s (amap (xmul (Fin 21797)) P0) ;;
  let c := amap (xmul (Fin (2602 / 100))) b in
  let A := amap (xmul a) b in
  l1 <- np_log (amap (xdiv p) P0) ;;
  cl <- ew2 xmul c l1 ;;
  let B := amap (xadd a) cl in
  C <- np_log (amap (xdiv p) P0) ;;
  (* B**2 - 4 * A * C *)
  AC4 <- ew2 xmul (amap (xmul (Fin 4)) A) C ;;
  D <- ew2 xsub (amap (fun x => xmul x x) B) AC4 ;;
  S <- np_sqrt D ;;
  num <- ew2 xadd (amap xneg B) S ;;
  ew2 xdiv num (amap (xmul (Fin 2)) A).

(** Steps 1 to 4 of [_ITU837_6.rainfall_rate]: the fields, [Mc], [Ms], [P0]. *)
Definition rainfall_rate_P0 (lat_d lon_d : arr xr)
  : SE (list call) (arr xr * arr xr * arr xr) :=
  Pr6v <- Pr6 lat_d lon_d ;;
  Mtv <- Mt lat_d lon_d ;;
  Betav <- Beta lat_d lon_d ;;
  Mc <- ew2 xmul Betav Mtv ;;
  Ms <- ew2 xmul (amap (xsub one) Betav) Mtv ;;
  (* P0 = np.where(Pr6 > 0 , Pr6 * (1 - np.exp(-0.0079 * (Ms / Pr6) ) ), 0) *)
  q <- ew2 xdiv Ms Pr6v ;;
  e <- np_exp (amap (xmul c_0079) q) ;;
  t <- ew2 xmul Pr6v (amap (xsub one) e) ;;
  P0 <- np_where (amap (fun x => xgt x zero) Pr6v) t (full_like Pr6v zero) ;;
  ret (P0, Mc, Ms).

(** [_ITU837_6.rainfall_rate] *)
Definition rainfall_rate (lat_d lon_d : arr xr) (p : xr) : SE (list call) (arr xr) :=
  r <- rainfall_rate_P0 lat_d lon_d ;;
  let '(P0, Mc, Ms) := r in
  Rpv <- computeRp p P0 Mc Ms ;;
  cond <- ew2 orb (amap xisnan P0) (amap (xgt p) P0) ;;
  np_where cond (full_like cond zero) Rpv.

End ITU837_6.

(** ** Version registry: [__ITU837], [change_version], [get_version] *)

(** Decimal rendering of an integer, as [str] does. *)
Fixpoint digits_N (fuel : nat) (n : N) (acc : string) : string :=
  match fuel with
  | O => acc
  | S f =>
      let acc' := String (ascii_of_N (48 + N.modulo n 10)) acc in
      if N.eqb (N.div n 10) 0 then acc' else digits_N f (N.div n 10) acc'
  end.

Definition str_N (n : N) : string := digits_N (S (N.to_nat (N.size n))) n EmptyString.

Definition str_Z (z : Z) : string :=
  match z with
  | Zneg p => String "-" (str_N (Npos p))
  | _ => str_N (Z.to_N z)
  end.

(** An instance of [_ITU837_6] (its lazily built interpolators apart). *)
Record ITU837_6_inst : Type := mk_ITU837_6 {
  version_ : Z;
  year : Z;
  month : Z;
  link : string
}.

(** [_ITU837_6()] *)
Definition new_ITU837_6 : ITU837_6_inst :=
  mk_ITU837_6 6 2012 2 "https://www.itu.int/rec/R-REC-P.837-6-201202-I/en".

(** An instance of [__ITU837]. *)
Record ITU837 : Type := mk_ITU837 { instance : ITU837_6_inst }.

(** [__ITU837(version)].  The module defines [_ITU837_6] only: evaluating
    [_ITU837_5()], ..., [_ITU837_1()] raises [NameError]. *)
Definition new_ITU837 (version : Z) : exn + ITU837 :=
  if Z.eqb version 6 then inr (mk_ITU837 new_ITU837_6)
  else if Z.eqb version 5 then inl (NameError "_ITU837_5")
  else if Z.eqb version 4 then inl (NameError "_ITU837_4")
  else if Z.eqb version 3 then inl (NameError "_ITU837_3")
  else if Z.eqb version 2 then inl (NameError "_ITU837_2")
  else if Z.eqb version 1 then inl (NameError "_ITU837_1")
  else inl (ValueError ("Version " ++ str_Z version ++ " is not implemented" ++
                        " for the ITU-R P.837 model.")).

(** [__ITU837.__version__] *)
Definition version (m : ITU837) : Z := version_ (instance m).

(** The decorated facade functions and their cache key: the name of the
    function and its arguments. *)
Inductive unit_tag : Type := Pct | MmPerHr.

Definition quantity : Type := (arr xr * unit_tag)%type.

Inductive key : Type :=
| KRpp (lat lon : arr xr)
| KRr (lat lon : arr xr) (p : xr).

(** The module state: the global [__model], the result cache of
    [memory.cache] and the log of ufunc calls. *)
Record GState : Type := mk_GState {
  model : ITU837;
  cache : list (key * quantity);
  log : list call
}.

(** [__model = __ITU837()] at import. *)
Definition init_model : ITU837 := mk_ITU837 new_ITU837_6.

(** [change_version(new_version)] *)
Definition change_version (new_version : Z) : SE GState unit :=
  fun st => match new_ITU837 new_version with
            | inl e => (inl e, st)
            | inr m => (inr tt, mk_GState m (cache st) (log st))
            end.

(** [get_version()] *)
Definition get_version : SE GState Z := fun st => (inr (version (model st)), st).

(** ** Public facade *)

Definition xr_eqb (x y : xr) : bool :=
  match x, y with
  | Fin a, Fin b => if Req_EM_T a b then true else false
  | PInf, PInf | NInf, NInf | NaN, NaN => true
  | _, _ => false
  end.

Fixpoint list_eqb {A} (eqb : A -> A -> bool) (l1 l2 : list A) : bool :=
  match l1, l2 with
  | [], [] => true
  | x :: t1, y :: t2 => eqb x y && list_eqb eqb t1 t2
  | _, _ => false
  end.

Definition arr_eqb (a b : arr xr) : bool :=
  list_nat_eqb (shape a) (shape b) && list_eqb xr_eqb (data a) (data b).

Definition key_eqb (k1 k2 : key) : bool :=
  match k1, k2 with
  | KRpp a1 o1, KRpp a2 o2 => arr_eqb a1 a2 && arr_eqb o1 o2
  | KRr a1 o1 p1, KRr a2 o2 p2 => arr_eqb a1 a2 && arr_eqb o1 o2 && xr_eqb p1 p2
  | _, _ => false
  end.

(** Modelled from the spec: [memory.cache] of [iturutils] (not part of this
    file), a memoization cache "keyed only on call arguments, not on active
    version", kept for the process lifetime. *)
Definition cache_lookup (k : key) (c : list (key * quantity)) : option quantity :=
  match find (fun '(k', _) => key_eqb k k') c with
  | Some (_, v) => Some v
  | None => None
  end.

Definition memo (k : key) (f : SE GState quantity) : SE GState quantity :=
  fun st => match cache_lookup k (cache st) with
            | Some v => (inr v, st)
            | None =>
                match f st with
                | (inl e, st') => (inl e, st')
                | (inr v, st') => (inr v, mk_GState (model st') ((k, v) :: cache st') (log st'))
                end
            end.

(** Modelled from the spec: [prepare_input_array] and [prepare_output_array]
    of [iturutils] (not part of this file); on arrays they return the array. *)
Definition prepare_input_array (a : arr xr) : arr xr := a.
Definition prepare_output_array (a : arr xr) : arr xr := a.

(** [np.mod(x, 360)] *)
Definition np_mod360 (x : xr) : xr :=
  match x with
  | Fin a => Fin (a - 360 * IZR (Int_part (a / 360)))
  | _ => NaN
  end.

(** [np.mod(x, 360)] on float64, as numpy computes it ([npy_divmod]):
    [mod = fmod(x, 360)]; a nonzero [mod] of the sign opposite to 360 gets
    [mod += 360] (a rounded float addition); a zero [mod] becomes [+0.0].
    Floats are Rocq's primitive binary64 numbers. *)
Module NpModFloat.
Import PrimFloat.



End NpModFloat.




(** A method of the model instance, run on the module state. *)
Definition run_log {A} (m : SE (list call) A) : SE GState A :=
  fun st => let '(r, l) := m (log st) in (r, mk_GState (model st) (cache st) l).

Section Facade.

Variables Pr6_f Mt_f Beta_f : xr -> xr -> xr.

(** [rain_percentage_probability(lat, lon)]; [__model] holds a
    [_ITU837_6] instance, the only one [__ITU837] can build. *)
Definition rain_percentage_probability_api (lat lon : arr xr) : SE GState quantity :=
  memo (KRpp lat lon)
    (let lat' := prepare_input_array lat in
     let lon' := amap np_mod360 (prepare_input_array lon) in
     val <- run_log (rain_percentage_probability Pr6_f Mt_f Beta_f lat' lon') ;;
     ret (prepare_output_array val, Pct)).

(** [rainfall_rate(lat, lon, p)] *)
Definition rainfall_rate_api (lat lon : arr xr) (p : xr) : SE GState quantity :=
  memo (KRr lat lon p)
    (let lat' := prepare_input_array lat in
     let lon' := amap np_mod360 (prepare_input_array lon) in
     val <- run_log (rainfall_rate Pr6_f Mt_f Beta_f lat' lon' p) ;;
     ret (prepare_output_array val, MmPerHr)).

End Facade.


(** ** Pointwise reading of the model methods *)

(** The query points [zip(lat.ravel(), lon.ravel())], shaped as [lat]. *)
Definition PTS (lat lon : arr xr) : arr (xr * xr) :=
  mk_arr (shape lat) (combine (data lat) (data lon)).

(** A well-formed query: [lat] is a well-formed array and [lon] has as many
    elements. *)
Definition query_ok (lat lon : arr xr) : bool :=
  wf_arr lat && Nat.eqb (length (data lon)) (length (data lat)).

Definition fld (f : xr -> xr -> xr) (x : xr * xr) : xr := let '(a, b) := x in f a b.

(** [computeRp] at one point, intermediate values included. *)
Definition Rp_b (P0 Mc Ms : xr) : xr := xdiv (xadd Mc Ms) (xmul (Fin 21797) P0).
Definition Rp_A (P0 Mc Ms : xr) : xr := xmul (Fin (109 / 100)) (Rp_b P0 Mc Ms).
Definition Rp_B (p P0 Mc Ms : xr) : xr :=
  xadd (Fin (109 / 100)) (xmul (xmul (Fin (2602 / 100)) (Rp_b P0 Mc Ms)) (xlog (xdiv p P0))).
Definition Rp_disc (p P0 Mc Ms : xr) : xr :=
  xsub (xmul (Rp_B p P0 Mc Ms) (Rp_B p P0 Mc Ms))
       (xmul (xmul (Fin 4) (Rp_A P0 Mc Ms)) (xlog (xdiv p P0))).
Definition computeRp_pt (p P0 Mc Ms : xr) : xr :=
  xdiv (xadd (xneg (Rp_B p P0 Mc Ms)) (xsqrt (Rp_disc p P0 Mc Ms)))
       (xmul (Fin 2) (Rp_A P0 Mc Ms)).

Section Pointwise.

Variables Pr6_f Mt_f Beta_f : xr -> xr -> xr.

Definition Mc_pt (x : xr * xr) : xr := xmul (fld Beta_f x) (fld Mt_f x).
Definition Ms_pt (x : xr * xr) : xr := xmul (xsub one (fld Beta_f x)) (fld Mt_f x).
Definition exp_arg_pt (x : xr * xr) : xr := xmul c_0079 (xdiv (Ms_pt x) (fld Pr6_f x)).

(** [P0] of [rain_percentage_probability] at one point. *)
Definition P0_rpp_pt (x : xr * xr) : xr :=
  xmul (fld Pr6_f x) (xsub one (xexp (exp_arg_pt x))).

(** [P0] of [rainfall_rate] at one point. *)
Definition P0_rr_pt (x : xr * xr) : xr :=
  if xgt (fld Pr6_f x) zero then P0_rpp_pt x else zero.

(** [rainfall_rate] at one point. *)
Definition rr_pt (p : xr) (x : xr * xr) : xr :=
  if xisnan (P0_rr_pt x) || xgt p (P0_rr_pt x) then zero
  else computeRp_pt p (P0_rr_pt x) (Mc_pt x) (Ms_pt x).

End Pointwise.

(** ** The formulas as the spec states them *)

(** [Ms = (1 - Beta) * Mt], [P0 = Pr6 * (1 - exp(-0.0079 * Ms / Pr6))]. *)
Definition P0_spec (Pr6v Mtv Betav : xr) : xr :=
  let Ms := xmul (xsub one Betav) Mtv in
  xmul Pr6v (xsub one (xexp (xdiv (xmul c_0079 Ms) Pr6v))).

(** [a = 1.09], [b = (Mc+Ms)/(21797*P0)], [c = 26.02*b], [A = a*b],
    [B = a + c*ln(p/P0)], [C = ln(p/P0)], [Rp = (-B + sqrt(B^2 - 4AC)) / (2A)]. *)
Definition Rp_spec (p P0 Mc Ms : xr) : xr :=
  let a := Fin (109 / 100) in
  let b := xdiv (xadd Mc Ms) (xmul (Fin 21797) P0) in
  let c := xmul (Fin (2602 / 100)) b in
  let A := xmul a b in
  let B := xadd a (xmul c (xlog (xdiv p P0))) in
  let C := xlog (xdiv p P0) in
  xdiv (xadd (xneg B) (xsqrt (xsub (xmul B B) (xmul (xmul (Fin 4) A) C))))
       (xmul (Fin 2) A).

(** ** Concrete inputs *)

(** A one-point query at (0, 0). *)
Definition lat1 : arr xr := mk_arr [1%nat] [Fin 0].
Definition lon1 : arr xr := mk_arr [1%nat] [Fin 0].

(** A field that is 0 everywhere. *)
Definition field0 : xr -> xr -> xr := fun _ _ => Fin 0.

(** A field that is 1 everywhere. *)
Definition field1 : xr -> xr -> xr := fun _ _ => Fin 1.

(** The module state right after import. *)
Definition st0 : GState := mk_GState init_model [] [].

(** ** The module API as a whole *)

(** [unavailability_from_rainfall_rate(lat, lon, R)]: the body prepares its
    inputs and ends (it is a TODO); the function returns [None]. *)
Definition unavailability_from_rainfall_rate (lat lon R : arr xr) : SE GState unit :=
  let lat' := prepare_input_array lat in
  let lon' := amap np_mod360 (prepare_input_array lon) in
  ret tt.

Section Reachable.

Variables Pr6_f Mt_f Beta_f : xr -> xr -> xr.

(** The module states reached from import by any sequence of calls of the
    public functions, failed calls included. *)
Inductive reachable : GState -> Prop :=
| reach_init : reachable st0
| reach_change n st : reachable st -> reachable (snd (change_version n st))
| reach_get st : reachable st -> reachable (snd (get_version st))
| reach_rpp lat lon st :
    reachable st -> reachable (snd (rain_percentage_probability_api Pr6_f Mt_f Beta_f lat lon st))
| reach_rr lat lon p st :
    reachable st -> reachable (snd (rainfall_rate_api Pr6_f Mt_f Beta_f lat lon p st))
| reach_unavail lat lon R st :
    reachable st -> reachable (snd (unavailability_from_rainfall_rate lat lon R st)).

(** What a call computes afresh with the [_ITU837_6] model. *)
Definition fresh_value (k : key) : quantity :=
  match k with
  | KRpp lat lon =>
      (amap (P0_rpp_pt Pr6_f Mt_f Beta_f) (PTS lat (amap np_mod360 lon)), Pct)
  | KRr lat lon p =>
      (amap (rr_pt Pr6_f Mt_f Beta_f p) (PTS lat (amap np_mod360 lon)), MmPerHr)
  end.

(** The query a cached call hands to the model, after [np.mod(lon, 360)],
    is well formed. *)
Definition key_query_ok (k : key) : bool :=
  match k with
  | KRpp lat lon | KRr lat lon _ => query_ok lat (amap np_mod360 lon)
  end.

(** A cache entry holds what its call computes afresh, for a well-formed
    query. *)
Definition entry_ok (kv : key * quantity) : Prop :=
  snd kv = fresh_value (fst kv) /\ key_query_ok (fst kv) = true.

End Reachable.

Lemma bind_step {S A B} (m : SE S A) (k : A -> SE S B) s a s' :
  m s = (inr a, s') -> bind m k s = k a s'.
Proof. intros H. unfold bind. rewrite H. reflexivity. Qed.

Lemma amap_amap {A B C} (g : B -> C) (h : A -> B) (P : arr A) :
  amap g (amap h P) = amap (fun x => g (h x)) P.
Proof. unfold amap; simpl. rewrite map_map. reflexivity. Qed.

Lemma combine_map_map {A B C} (g : A -> B) (h : A -> C) (l : list A) :
  combine (map g l) (map h l) = map (fun x => (g x, h x)) l.
Proof. induction l as [|x l IH]; simpl; [reflexivity | now rewrite IH]. Qed.

Lemma list_nat_eqb_refl l : list_nat_eqb l l = true.
Proof. unfold list_nat_eqb. destruct (list_eq_dec Nat.eq_dec l l); congruence. Qed.

Lemma ew2_amap {S A B C D} (f : B -> C -> D) (g : A -> B) (h : A -> C) (P : arr A) (s : S) :
  ew2 f (amap g P) (amap h P) s = (inr (amap (fun x => f (g x) (h x)) P), s).
Proof.
  unfold ew2, amap; simpl. rewrite list_nat_eqb_refl, combine_map_map, map_map.
  reflexivity.
Qed.

Lemma np_where_amap {S A B} (c : A -> bool) (g h : A -> B) (P : arr A) (s : S) :
  np_where (amap c P) (amap g P) (amap h P) s =
  (inr (amap (fun x => if c x then g x else h x) P), s).
Proof.
  unfold np_where. erewrite bind_step by apply ew2_amap.
  rewrite ew2_amap. reflexivity.
Qed.

Lemma np_ufunc_amap u f (g : xr * xr -> xr) P log :
  np_ufunc u f (amap g P) log = (inr (amap (fun x => f (g x)) P), log ++ [(u, amap g P)]).
Proof. unfold np_ufunc. now rewrite amap_amap. Qed.

Lemma combine_length_l {A B} (l1 : list A) (l2 : list B) :
  length l2 = length l1 -> length (combine l1 l2) = length l1.
Proof. intros H. rewrite length_combine, H. apply Nat.min_id. Qed.

Lemma interp_ok f lat lon (s : list call) :
  query_ok lat lon = true ->
  interp f lat lon s = (inr (amap (fld f) (PTS lat lon)), s).
Proof.
  unfold query_ok, wf_arr. rewrite andb_true_iff, !Nat.eqb_eq. intros [Hw Hl].
  unfold interp, stack_points. rewrite Hl, Nat.eqb_refl.
  erewrite bind_step by reflexivity.
  unfold reshape. rewrite length_map, combine_length_l, Hw, Nat.eqb_refl by exact Hl.
  reflexivity.
Qed.

(** Runs a model method on arrays that are all maps over the query points. *)
Ltac se_step :=
  first
    [ rewrite amap_amap
    | erewrite bind_step
        by first [ apply interp_ok; assumption | apply ew2_amap | apply np_where_amap
                 | apply np_ufunc_amap | reflexivity ]
    | rewrite ew2_amap
    | rewrite np_where_amap ];
  cbv beta iota zeta.

Ltac se_run := unfold full_like; repeat se_step.

Section Normal.

Variables Pr6_f Mt_f Beta_f : xr -> xr -> xr.
Variables lat lon : arr xr.
Hypothesis Hq : query_ok lat lon = true.

Let P := PTS lat lon.

Lemma rpp_normal (s : list call) :
  rain_percentage_probability Pr6_f Mt_f Beta_f lat lon s =
  (inr (amap (P0_rpp_pt Pr6_f Mt_f Beta_f) P),
   s ++ [(UExp, amap (exp_arg_pt Pr6_f Mt_f Beta_f) P)]).
Proof.
  unfold rain_percentage_probability, Pr6, Mt, Beta. se_run. reflexivity.
Qed.

Lemma rr_P0_normal (s : list call) :
  rainfall_rate_P0 Pr6_f Mt_f Beta_f lat lon s =
  (inr (amap (P0_rr_pt Pr6_f Mt_f Beta_f) P, amap (Mc_pt Mt_f Beta_f) P,
        amap (Ms_pt Mt_f Beta_f) P),
   s ++ [(UExp, amap (exp_arg_pt Pr6_f Mt_f Beta_f) P)]).
Proof.
  unfold rainfall_rate_P0, Pr6, Mt, Beta. se_run. reflexivity.
Qed.

End Normal.

Lemma computeRp_normal p (f0 f1 f2 : xr * xr -> xr) (P : arr (xr * xr)) s :
  computeRp p (amap f0 P) (amap f1 P) (amap f2 P) s =
  (inr (amap (fun x => computeRp_pt p (f0 x) (f1 x) (f2 x)) P),
   ((s ++ [(ULog, amap (fun x => xdiv p (f0 x)) P)])
       ++ [(ULog, amap (fun x => xdiv p (f0 x)) P)])
       ++ [(USqrt, amap (fun x => Rp_disc p (f0 x) (f1 x) (f2 x)) P)]).
Proof. unfold computeRp. se_run. reflexivity. Qed.

Lemma rr_normal Pr6_f Mt_f Beta_f lat lon p s :
  query_ok lat lon = true ->
  let P := PTS lat lon in
  let P0 := P0_rr_pt Pr6_f Mt_f Beta_f in
  rainfall_rate Pr6_f Mt_f Beta_f lat lon p s =
  (inr (amap (rr_pt Pr6_f Mt_f Beta_f p) P),
   s ++ [(UExp, amap (exp_arg_pt Pr6_f Mt_f Beta_f) P);
         (ULog, amap (fun x => xdiv p (P0 x)) P);
         (ULog, amap (fun x => xdiv p (P0 x)) P);
         (USqrt, amap (fun x => Rp_disc p (P0 x) (Mc_pt Mt_f Beta_f x)
                                  (Ms_pt Mt_f Beta_f x)) P)]).
Proof.
  intros Hq P P0. unfold rainfall_rate.
  erewrite bind_step by (apply rr_P0_normal; exact Hq). cbv beta iota zeta.
  erewrite bind_step by apply computeRp_normal. cbv beta iota zeta.
  se_run. rewrite <- !app_assoc. reflexivity.
Qed.

(** ** Lemmas on the numbers *)

Lemma sign3_cases r :
  (r < 0 /\ sign3 r = Lt) \/ (r = 0 /\ sign3 r = Eq) \/ (0 < r /\ sign3 r = Gt).
Proof. unfold sign3. destruct (total_order_T r 0) as [[H|H]|H]; auto. Qed.

Lemma sign3_lt r : r < 0 -> sign3 r = Lt.
Proof. intros H. destruct (sign3_cases r) as [[_ E]|[[E _]|[E _]]]; auto; lra. Qed.

Lemma sign3_eq r : r = 0 -> sign3 r = Eq.
Proof. intros H. destruct (sign3_cases r) as [[E _]|[[_ E]|[E _]]]; auto; lra. Qed.

Lemma sign3_gt r : 0 < r -> sign3 r = Gt.
Proof. intros H. destruct (sign3_cases r) as [[E _]|[[E _]|[_ E]]]; auto; lra. Qed.

Ltac sign_of r :=
  let H := fresh "Hs" in
  destruct (sign3_cases r) as [[H ->]|[[H ->]|[H ->]]].

(** [-0.0079 * Ms / Pr6] and [-0.0079 * (Ms / Pr6)] agree on every input. *)
Lemma xdiv_mul_neg k m q :
  k < 0 -> xdiv (xmul (Fin k) m) q = xmul (Fin k) (xdiv m q).
Proof.
  intros Hk.
  destruct m as [a| | |], q as [b| | |]; simpl; try reflexivity; try (f_equal; ring).
  1: { sign_of b; simpl; try (f_equal; field; lra).
       sign_of a; simpl; unfold inf_times.
       - rewrite (sign3_gt (k * a)) by nra. rewrite sign3_lt by lra. reflexivity.
       - rewrite (sign3_eq (k * a)) by (subst; ring). reflexivity.
       - rewrite (sign3_lt (k * a)) by nra. rewrite sign3_lt by lra. reflexivity. }
  all: unfold inf_times, inf_div; rewrite ?(sign3_lt k) by lra; simpl; try reflexivity.
  all: unfold inf_div; sign_of b; simpl; unfold inf_times; rewrite ?(sign3_lt k) by lra; reflexivity.
Qed.

Lemma xle_not_gt x y : xle x y = true -> xgt x y = false /\ xisnan y = false.
Proof.
  destruct x, y; simpl; try discriminate; intros H;
    try (apply negb_true_iff in H); auto.
Qed.

Lemma nth_error_combine {A B} (l1 : list A) (l2 : list B) i a b :
  nth_error l1 i = Some a -> nth_error l2 i = Some b ->
  nth_error (combine l1 l2) i = Some (a, b).
Proof.
  revert l2 i. induction l1 as [|x l1 IH]; intros [|y l2] [|i]; simpl;
    try discriminate; intros H1 H2.
  - congruence.
  - auto.
Qed.

Lemma nth_error_amap_PTS {B} (f : xr * xr -> B) lat lon i la lo :
  nth_error (data lat) i = Some la -> nth_error (data lon) i = Some lo ->
  nth_error (data (amap f (PTS lat lon))) i = Some (f (la, lo)).
Proof.
  intros H1 H2. unfold amap, PTS; simpl.
  rewrite nth_error_map, (nth_error_combine _ _ _ _ _ H1 H2). reflexivity.
Qed.

Lemma query_ok_1 : query_ok lat1 lon1 = true.
Proof. reflexivity. Qed.

Lemma P0_rr_field0 : P0_rr_pt field0 field0 field0 (Fin 0, Fin 0) = zero.
Proof. unfold P0_rr_pt. simpl. rewrite sign3_eq by ring. reflexivity. Qed.

(** ** Claims on [_ITU837_6] *)

(** C1 (the [Pr6 = 0] guard of [rain_percentage_probability]): at a point
    where the interpolated [Pr6], [Mt] and [Beta] are all 0,
    [rain_percentage_probability] returns NaN, not 0: [Ms / Pr6] is [0/0] and
    no [Pr6 > 0] guard masks it.  [rainfall_rate], on the same point, guards
    the same expression and takes [P0 = 0]. *)
Theorem rpp_Pr6_zero_not_guarded :
  fst (rain_percentage_probability field0 field0 field0 lat1 lon1 []) =
    inr (mk_arr [1%nat] [NaN]) /\
  exists Mc Ms,
    fst (rainfall_rate_P0 field0 field0 field0 lat1 lon1 []) =
      inr (mk_arr [1%nat] [zero], Mc, Ms).
Proof.
  split.
  - rewrite (rpp_normal _ _ _ _ _ query_ok_1).
    unfold amap, PTS, P0_rpp_pt, exp_arg_pt, Ms_pt; simpl.
    rewrite !sign3_eq by ring. reflexivity.
  - rewrite (rr_P0_normal _ _ _ _ _ query_ok_1).
    unfold amap, PTS, P0_rr_pt; simpl. rewrite sign3_eq by ring. eauto.
Qed.

(** C2: on a well-formed query, [rainfall_rate] raises no error, and at every
    point where [p > P0] or [P0] is NaN its result is exactly 0. *)
Theorem rainfall_rate_zero_outside_valid_region Pr6_f Mt_f Beta_f lat lon p s :
  query_ok lat lon = true ->
  exists res s',
    rainfall_rate Pr6_f Mt_f Beta_f lat lon p s = (inr res, s') /\
    forall i la lo,
      nth_error (data lat) i = Some la -> nth_error (data lon) i = Some lo ->
      let P0 := P0_rr_pt Pr6_f Mt_f Beta_f (la, lo) in
      xgt p P0 = true \/ xisnan P0 = true ->
      nth_error (data res) i = Some zero.
Proof.
  intros Hq. rewrite (rr_normal _ _ _ _ _ _ _ Hq). do 2 eexists. split; [reflexivity|].
  intros i la lo H1 H2 P0 Hc.
  rewrite (nth_error_amap_PTS _ _ _ _ _ _ H1 H2). unfold rr_pt. fold P0.
  destruct Hc as [-> | ->]; rewrite ?orb_true_r; reflexivity.
Qed.

(** C3: on a well-formed query, at every point where [p <= P0] and [P0] is a
    number, [rainfall_rate] returns
    [Rp = (-B + sqrt(B^2 - 4AC)) / (2A)] with [a = 1.09],
    [b = (Mc+Ms)/(21797*P0)], [c = 26.02*b], [A = a*b], [B = a + c*ln(p/P0)],
    [C = ln(p/P0)], [Mc = Beta*Mt], [Ms = (1-Beta)*Mt]. *)
Theorem rainfall_rate_valid_region_formula Pr6_f Mt_f Beta_f lat lon p s :
  query_ok lat lon = true ->
  exists res s',
    rainfall_rate Pr6_f Mt_f Beta_f lat lon p s = (inr res, s') /\
    forall i la lo,
      nth_error (data lat) i = Some la -> nth_error (data lon) i = Some lo ->
      let P0 := P0_rr_pt Pr6_f Mt_f Beta_f (la, lo) in
      let Mc := xmul (Beta_f la lo) (Mt_f la lo) in
      let Ms := xmul (xsub one (Beta_f la lo)) (Mt_f la lo) in
      xle p P0 = true -> xisnan P0 = false ->
      nth_error (data res) i = Some (Rp_spec p P0 Mc Ms).
Proof.
  intros Hq. rewrite (rr_normal _ _ _ _ _ _ _ Hq). do 2 eexists. split; [reflexivity|].
  intros i la lo H1 H2 P0 Mc Ms Hle Hn.
  rewrite (nth_error_amap_PTS _ _ _ _ _ _ H1 H2). unfold rr_pt. fold P0.
  destruct (xle_not_gt _ _ Hle) as [Hg _]. rewrite Hn, Hg. reflexivity.
Qed.

(** C6: on a well-formed query, [rain_percentage_probability] returns, with
    no error, the array of the shape of [lat] whose value at each point is
    [Pr6 * (1 - exp(-0.0079 * Ms / Pr6))], [Ms = (1 - Beta) * Mt], from the
    fields interpolated at that point. *)
Theorem rpp_pointwise_formula Pr6_f Mt_f Beta_f lat lon s :
  query_ok lat lon = true ->
  exists s',
    rain_percentage_probability Pr6_f Mt_f Beta_f lat lon s =
    (inr (mk_arr (shape lat)
            (map (fun '(la, lo) => P0_spec (Pr6_f la lo) (Mt_f la lo) (Beta_f la lo))
                 (combine (data lat) (data lon)))), s') /\
    length (map (fun '(la, lo) => P0_spec (Pr6_f la lo) (Mt_f la lo) (Beta_f la lo))
                 (combine (data lat) (data lon))) = size (shape lat).
Proof.
  intros Hq. rewrite (rpp_normal _ _ _ _ _ Hq). eexists. split.
  - unfold amap, PTS; simpl. do 3 f_equal. apply map_ext. intros [la lo].
    cbv beta iota zeta delta [P0_rpp_pt P0_spec exp_arg_pt Ms_pt fld c_0079].
    rewrite xdiv_mul_neg by lra. reflexivity.
  - unfold query_ok, wf_arr in Hq. apply andb_true_iff in Hq as [Hw Hl].
    apply Nat.eqb_eq in Hw, Hl.
    rewrite length_map, combine_length_l; assumption.
Qed.

(** C10: on a well-formed query, at every point where the interpolated [Pr6]
    is [> 0], the [P0] computed by [rainfall_rate] equals the value returned by
    [rain_percentage_probability]. *)
Theorem rr_P0_agrees_with_rpp Pr6_f Mt_f Beta_f lat lon s :
  query_ok lat lon = true ->
  exists r1 s1 P0 Mc Ms s2,
    rain_percentage_probability Pr6_f Mt_f Beta_f lat lon s = (inr r1, s1) /\
    rainfall_rate_P0 Pr6_f Mt_f Beta_f lat lon s = (inr (P0, Mc, Ms), s2) /\
    forall i la lo,
      nth_error (data lat) i = Some la -> nth_error (data lon) i = Some lo ->
      xgt (Pr6_f la lo) zero = true ->
      exists v, nth_error (data r1) i = Some v /\ nth_error (data P0) i = Some v.
Proof.
  intros Hq. rewrite (rpp_normal _ _ _ _ _ Hq), (rr_P0_normal _ _ _ _ _ Hq).
  do 6 eexists. split; [reflexivity|]. split; [reflexivity|].
  intros i la lo H1 H2 Hp.
  rewrite !(nth_error_amap_PTS _ _ _ _ _ _ H1 H2). eexists. split; [reflexivity|].
  unfold P0_rr_pt. simpl. rewrite Hp. reflexivity.
Qed.

(** C7, as stated, fails: at (0, 0) with all fields 0, [P0 = 0 < 1 = p], and
    still [rainfall_rate] calls [np.sqrt] on the discriminant of that point
    ([np.where] receives [computeRp(P0, Mc, Ms)] evaluated on the whole
    arrays). *)
Lemma rainfall_rate_sqrt_evaluated_outside_valid_region :
  xgt (Fin 1) (P0_rr_pt field0 field0 field0 (Fin 0, Fin 0)) = true /\
  In (USqrt, mk_arr [1%nat]
               [Rp_disc (Fin 1) (P0_rr_pt field0 field0 field0 (Fin 0, Fin 0))
                  (Mc_pt field0 field0 (Fin 0, Fin 0)) (Ms_pt field0 field0 (Fin 0, Fin 0))])
     (snd (rainfall_rate field0 field0 field0 lat1 lon1 (Fin 1) [])).
Proof.
  split.
  - rewrite P0_rr_field0. simpl. rewrite sign3_gt by lra. reflexivity.
  - rewrite (rr_normal _ _ _ _ _ _ _ query_ok_1). cbn [snd app In].
    right; right; right; left. reflexivity.
Qed.

(** C7 (amended): on a well-formed query, [rainfall_rate] calls [np.sqrt] on
    the array of the discriminants [B^2 - 4AC] of all the query points, those
    where [p > P0] or [P0] is NaN included; at those points the value is
    discarded and the result is exactly 0. *)
Theorem rainfall_rate_sqrt_on_all_points Pr6_f Mt_f Beta_f lat lon p s :
  query_ok lat lon = true ->
  exists res s' d,
    rainfall_rate Pr6_f Mt_f Beta_f lat lon p s = (inr res, s') /\
    In (USqrt, d) s' /\ shape d = shape lat /\
    forall i la lo,
      nth_error (data lat) i = Some la -> nth_error (data lon) i = Some lo ->
      let P0 := P0_rr_pt Pr6_f Mt_f Beta_f (la, lo) in
      let Mc := xmul (Beta_f la lo) (Mt_f la lo) in
      let Ms := xmul (xsub one (Beta_f la lo)) (Mt_f la lo) in
      nth_error (data d) i = Some (Rp_disc p P0 Mc Ms) /\
      (xgt p P0 = true \/ xisnan P0 = true -> nth_error (data res) i = Some zero).
Proof.
  intros Hq. rewrite (rr_normal _ _ _ _ _ _ _ Hq). do 3 eexists. split; [reflexivity|].
  split.
  { apply in_or_app. right. right; right; right; left. reflexivity. }
  split; [reflexivity|].
  intros i la lo H1 H2 P0 Mc Ms. split.
  - rewrite (nth_error_amap_PTS _ _ _ _ _ _ H1 H2). reflexivity.
  - intros Hc. rewrite (nth_error_amap_PTS _ _ _ _ _ _ H1 H2). unfold rr_pt. fold P0.
    destruct Hc as [-> | ->]; rewrite ?orb_true_r; reflexivity.
Qed.

(** ** Claims on the version registry *)

(** C4: [change_version(k)] for [k] in 1..5 raises [NameError] (the module
    defines no [_ITU837_k] class for them) and keeps the active version;
    only [change_version(6)] succeeds, and then [get_version()] is 6. *)
Theorem change_version_1_to_5_NameError st :
  Forall (fun k => change_version k st = (inl (NameError ("_ITU837_" ++ str_Z k)), st))
         [1; 2; 3; 4; 5]%Z /\
  fst (change_version 6 st) = inr tt /\
  fst (get_version (snd (change_version 6 st))) = inr 6%Z.
Proof.
  split; [|split; reflexivity].
  repeat constructor.
Qed.

(** C5: [change_version(n)] for [n] outside 1..6 raises
    [ValueError('Version n is not implemented for the ITU-R P.837 model.')]
    and leaves the state, hence the active version, unchanged; and every
    [change_version(m)] either installs version [m] or leaves the state
    unchanged. *)
Theorem change_version_invalid_raises n st :
  (n < 1 \/ 6 < n)%Z ->
  change_version n st =
    (inl (ValueError ("Version " ++ str_Z n ++ " is not implemented" ++
                      " for the ITU-R P.837 model.")), st) /\
  fst (get_version (snd (change_version n st))) = fst (get_version st) /\
  forall m,
    (fst (change_version m st) = inr tt /\
     fst (get_version (snd (change_version m st))) = inr m) \/
    snd (change_version m st) = st.
Proof.
  intros Hn.
  assert (E : change_version n st =
    (inl (ValueError ("Version " ++ str_Z n ++ " is not implemented" ++
                      " for the ITU-R P.837 model.")), st)).
  { unfold change_version, new_ITU837.
    repeat (rewrite (proj2 (Z.eqb_neq _ _)) by lia). reflexivity. }
  split; [exact E|]. split; [rewrite E; reflexivity|].
  intros m. unfold change_version, new_ITU837.
  destruct (Z.eqb_spec m 6) as [->|_]; [left; split; reflexivity|].
  right. repeat (destruct (Z.eqb _ _); [reflexivity|]). reflexivity.
Qed.

(** ** The result cache of the facade *)

Lemma xr_eqb_refl x : xr_eqb x x = true.
Proof. destruct x; simpl; try reflexivity. destruct (Req_EM_T r r); congruence. Qed.

Lemma list_eqb_refl {A} (eqb : A -> A -> bool) l :
  (forall x, eqb x x = true) -> list_eqb eqb l l = true.
Proof. intros H. induction l; simpl; rewrite ?H, ?IHl; reflexivity. Qed.

Lemma arr_eqb_refl a : arr_eqb a a = true.
Proof.
  unfold arr_eqb. rewrite list_nat_eqb_refl, list_eqb_refl by apply xr_eqb_refl.
  reflexivity.
Qed.

Lemma key_eqb_refl k : key_eqb k k = true.
Proof. destruct k; simpl; rewrite !arr_eqb_refl, ?xr_eqb_refl; reflexivity. Qed.

(** After a successful memoized call, its result is in the cache. *)
Lemma memo_stores k f st v st1 :
  memo k f st = (inr v, st1) -> cache_lookup k (cache st1) = Some v.
Proof.
  unfold memo. destruct (cache_lookup k (cache st)) as [v'|] eqn:E.
  - intros H. inversion H; subst. exact E.
  - destruct (f st) as [[e|v'] st'].
    + discriminate.
    + intros H. inversion H; subst. simpl.
      unfold cache_lookup. simpl. rewrite key_eqb_refl. reflexivity.
Qed.

Lemma memo_hit k f st v :
  cache_lookup k (cache st) = Some v -> memo k f st = (inr v, st).
Proof. intros H. unfold memo. rewrite H. reflexivity. Qed.

Lemma change_version_cache n st : cache (snd (change_version n st)) = cache st.
Proof. unfold change_version. destruct (new_ITU837 n); reflexivity. Qed.

(** C9 (memoization): the facade cache is keyed on the call arguments only;
    after [change_version(n)], for any [n], a repeated call of
    [rain_percentage_probability] or [rainfall_rate] with the arguments of an
    earlier successful call returns the earlier result, from the cache. *)
Theorem facade_cache_survives_change_version Pr6_f Mt_f Beta_f :
  (forall lat lon st v st1 n,
     rain_percentage_probability_api Pr6_f Mt_f Beta_f lat lon st = (inr v, st1) ->
     rain_percentage_probability_api Pr6_f Mt_f Beta_f lat lon (snd (change_version n st1)) =
       (inr v, snd (change_version n st1))) /\
  (forall lat lon p st v st1 n,
     rainfall_rate_api Pr6_f Mt_f Beta_f lat lon p st = (inr v, st1) ->
     rainfall_rate_api Pr6_f Mt_f Beta_f lat lon p (snd (change_version n st1)) =
       (inr v, snd (change_version n st1))).
Proof.
  split.
  - intros lat lon st v st1 n H. apply memo_hit.
    rewrite change_version_cache. exact (memo_stores _ _ _ _ _ H).
  - intros lat lon p st v st1 n H. apply memo_hit.
    rewrite change_version_cache. exact (memo_stores _ _ _ _ _ H).
Qed.

Lemma rpp_api_first_call Pr6_f Mt_f Beta_f lat lon st :
  cache_lookup (KRpp lat lon) (cache st) = None ->
  query_ok lat (amap np_mod360 lon) = true ->
  exists v st1, rain_percentage_probability_api Pr6_f Mt_f Beta_f lat lon st = (inr v, st1).
Proof.
  intros Hc Hq. unfold rain_percentage_probability_api, memo. rewrite Hc.
  unfold bind, run_log, prepare_input_array.
  rewrite (rpp_normal _ _ _ _ _ Hq). unfold ret. eauto.
Qed.

Lemma rr_api_first_call Pr6_f Mt_f Beta_f lat lon p st :
  cache_lookup (KRr lat lon p) (cache st) = None ->
  query_ok lat (amap np_mod360 lon) = true ->
  exists v st1, rainfall_rate_api Pr6_f Mt_f Beta_f lat lon p st = (inr v, st1).
Proof.
  intros Hc Hq. unfold rainfall_rate_api, memo. rewrite Hc.
  unfold bind, run_log, prepare_input_array.
  rewrite (rr_normal _ _ _ _ _ _ _ Hq). unfold ret. eauto.
Qed.

(** ** Witnesses *)

(** At (0, 0) with all fields 0, [P0 = 0 < 1 = p] and the rate is 0. *)
Lemma rainfall_rate_zero_outside_valid_region_witness :
  query_ok lat1 lon1 = true /\
  exists res, fst (rainfall_rate field0 field0 field0 lat1 lon1 (Fin 1) []) = inr res /\
              nth_error (data res) 0 = Some zero.
Proof.
  split; [reflexivity|].
  destruct (rainfall_rate_zero_outside_valid_region field0 field0 field0 lat1 lon1 (Fin 1) []
              query_ok_1) as (res & s' & E & H).
  exists res. rewrite E. split; [reflexivity|].
  apply (H 0%nat (Fin 0) (Fin 0) eq_refl eq_refl). left.
  rewrite P0_rr_field0. simpl. rewrite sign3_gt by lra. reflexivity.
Defined.

(** At (0, 0) with all fields 0 and [p = 0 = P0], the rate is [Rp_spec]. *)

Lemma rpp_pointwise_formula_witness :
  query_ok lat1 lon1 = true /\
  fst (rain_percentage_probability field1 field1 field1 lat1 lon1 []) =
  inr (mk_arr [1%nat] [P0_spec (Fin 1) (Fin 1) (Fin 1)]).
Proof.
  split; [reflexivity|].
  destruct (rpp_pointwise_formula field1 field1 field1 lat1 lon1 [] query_ok_1) as (s' & E & _).
  rewrite E. reflexivity.
Defined.

(** At (0, 0) with all fields 1, [Pr6 > 0] and both [P0] agree. *)
Lemma rr_P0_agrees_with_rpp_witness :
  query_ok lat1 lon1 = true /\
  exists r1 P0 Mc Ms,
    fst (rain_percentage_probability field1 field1 field1 lat1 lon1 []) = inr r1 /\
    fst (rainfall_rate_P0 field1 field1 field1 lat1 lon1 []) = inr (P0, Mc, Ms) /\
    nth_error (data r1) 0 = nth_error (data P0) 0.
Proof.
  split; [reflexivity|].
  destruct (rr_P0_agrees_with_rpp field1 field1 field1 lat1 lon1 [] query_ok_1)
    as (r1 & s1 & P0 & Mc & Ms & s2 & E1 & E2 & H).
  exists r1, P0, Mc, Ms. rewrite E1, E2. split; [reflexivity|]. split; [reflexivity|].
  destruct (H 0%nat (Fin 0) (Fin 0) eq_refl eq_refl) as (v & H1 & H2).
  - simpl. rewrite sign3_gt by lra. reflexivity.
  - rewrite H1, H2. reflexivity.
Defined.

(** At (0, 0) with all fields 0. *)
Lemma rainfall_rate_sqrt_on_all_points_witness :
  query_ok lat1 lon1 = true /\
  exists d, In (USqrt, d) (snd (rainfall_rate field0 field0 field0 lat1 lon1 (Fin 1) [])) /\
            shape d = [1%nat].
Proof.
  split; [reflexivity|].
  destruct (rainfall_rate_sqrt_on_all_points field0 field0 field0 lat1 lon1 (Fin 1) []
              query_ok_1) as (res & s' & d & E & Hin & Hs & _).
  exists d. rewrite E. split; [exact Hin | exact Hs].
Defined.

Lemma change_version_invalid_raises_witness :
  fst (change_version 7 st0) =
    inl (ValueError "Version 7 is not implemented for the ITU-R P.837 model.") /\
  snd (change_version 7 st0) = st0.
Proof.
  destruct (change_version_invalid_raises 7 st0) as (E & _ & _); [lia|].
  rewrite E. split; reflexivity.
Defined.

(** From the state after import, a call at (0, 0), then [change_version(5)]
    (which fails) or [change_version(6)], then the same call. *)
Lemma facade_cache_survives_change_version_witness :
  exists v st1 w st2,
    rain_percentage_probability_api field1 field1 field0 lat1 lon1 st0 = (inr v, st1) /\
    rain_percentage_probability_api field1 field1 field0 lat1 lon1 (snd (change_version 5 st1)) =
      (inr v, snd (change_version 5 st1)) /\
    rainfall_rate_api field1 field1 field0 lat1 lon1 (Fin 1) st0 = (inr w, st2) /\
    rainfall_rate_api field1 field1 field0 lat1 lon1 (Fin 1) (snd (change_version 6 st2)) =
      (inr w, snd (change_version 6 st2)).
Proof.
  destruct (rpp_api_first_call field1 field1 field0 lat1 lon1 st0 eq_refl eq_refl)
    as (v & st1 & E1).
  destruct (rr_api_first_call field1 field1 field0 lat1 lon1 (Fin 1) st0 eq_refl eq_refl)
    as (w & st2 & E2).
  destruct (facade_cache_survives_change_version field1 field1 field0) as [H1 H2].
  exists v, st1, w, st2. split; [exact E1|]. split; [exact (H1 _ _ _ _ _ 5%Z E1)|].
  split; [exact E2|]. exact (H2 _ _ _ _ _ _ 6%Z E2).
Defined.

(** ** Further properties: errors, the version registry, the cache *)

Lemma interp_error f lat lon (s : list call) :
  query_ok lat lon = false ->
  exists msg, interp f lat lon s = (inl (ValueError msg), s).
Proof.
  unfold query_ok, wf_arr, interp, stack_points. intros Hq.
  destruct (Nat.eqb_spec (length (data lat)) (length (data lon))) as [Hl|Hl].
  - rewrite (proj2 (Nat.eqb_eq _ _) (eq_sym Hl)), andb_true_r in Hq.
    erewrite bind_step by reflexivity. unfold reshape.
    rewrite length_map, combine_length_l by (symmetry; exact Hl).
    rewrite Hq. eexists. reflexivity.
  - eexists. reflexivity.
Qed.

Lemma bad_query_error Pr6_f Mt_f Beta_f lat lon p s :
  query_ok lat lon = false ->
  (exists msg, rain_percentage_probability Pr6_f Mt_f Beta_f lat lon s = (inl (ValueError msg), s)) /\
  (exists msg, rainfall_rate Pr6_f Mt_f Beta_f lat lon p s = (inl (ValueError msg), s)).
Proof.
  intros Hq. destruct (interp_error Pr6_f lat lon s Hq) as [msg E]. split.
  - exists msg. unfold rain_percentage_probability, Pr6, bind. rewrite E. reflexivity.
  - exists msg. unfold rainfall_rate, rainfall_rate_P0, Pr6, bind. rewrite E. reflexivity.
Qed.

Lemma rpp_result Pr6_f Mt_f Beta_f lat lon s v s' :
  rain_percentage_probability Pr6_f Mt_f Beta_f lat lon s = (inr v, s') ->
  v = amap (P0_rpp_pt Pr6_f Mt_f Beta_f) (PTS lat lon).
Proof.
  destruct (query_ok lat lon) eqn:Hq.
  - rewrite (rpp_normal _ _ _ _ _ Hq). congruence.
  - destruct (bad_query_error Pr6_f Mt_f Beta_f lat lon zero s Hq) as [[m E] _].
    congruence.
Qed.

Lemma rr_result Pr6_f Mt_f Beta_f lat lon p s v s' :
  rainfall_rate Pr6_f Mt_f Beta_f lat lon p s = (inr v, s') ->
  v = amap (rr_pt Pr6_f Mt_f Beta_f p) (PTS lat lon).
Proof.
  destruct (query_ok lat lon) eqn:Hq.
  - rewrite (rr_normal _ _ _ _ _ _ _ Hq). congruence.
  - destruct (bad_query_error Pr6_f Mt_f Beta_f lat lon p s Hq) as [_ [m E]].
    congruence.
Qed.

(** The body of a facade function: run the method, tag the unit. *)
Lemma api_body_model {A} (m : SE (list call) A) (g : A -> quantity) st :
  model (snd (bind (run_log m) (fun v => ret (g v)) st)) = model st /\
  cache (snd (bind (run_log m) (fun v => ret (g v)) st)) = cache st.
Proof. unfold bind, run_log, ret. destruct (m (log st)) as [[e|v] l]; split; reflexivity. Qed.

Lemma memo_model k f st :
  model (snd (f st)) = model st -> model (snd (memo k f st)) = model st.
Proof.
  intros H. unfold memo. destruct (cache_lookup k (cache st)); [reflexivity|].
  destruct (f st) as [[e|v] st'] eqn:E; simpl in *; exact H.
Qed.

(** [_ITU837_6.rain_percentage_probability] and [_ITU837_6.rainfall_rate]
    raise [ValueError], before any ufunc call, when [lon] has not as many
    elements as [lat] (or [lat] is not a well-formed array). *)
Theorem methods_raise_on_bad_query Pr6_f Mt_f Beta_f lat lon p s :
  query_ok lat lon = false ->
  (exists msg, rain_percentage_probability Pr6_f Mt_f Beta_f lat lon s = (inl (ValueError msg), s)) /\
  (exists msg, rainfall_rate Pr6_f Mt_f Beta_f lat lon p s = (inl (ValueError msg), s)).
Proof. apply bad_query_error. Qed.

(** Every state reached through the public functions has [get_version()]
    equal to 6: [__ITU837] can only build a [_ITU837_6] instance. *)
Theorem reachable_version_6 Pr6_f Mt_f Beta_f st :
  reachable Pr6_f Mt_f Beta_f st -> fst (get_version st) = inr 6%Z.
Proof.
  induction 1 as [|n st _ IH|st _ IH|lat lon st _ IH|lat lon p st _ IH|lat lon R st _ IH];
    try exact IH.
  - reflexivity.
  - unfold change_version, new_ITU837.
    repeat (destruct (Z.eqb _ _); [try reflexivity; exact IH|]). exact IH.
  - unfold get_version in *. simpl. unfold rain_percentage_probability_api.
    rewrite memo_model; [exact IH|]. apply api_body_model.
  - unfold get_version in *. simpl. unfold rainfall_rate_api.
    rewrite memo_model; [exact IH|]. apply api_body_model.
Qed.

Lemma xr_eqb_true x y : xr_eqb x y = true -> x = y.
Proof.
  destruct x, y; simpl; try discriminate; try reflexivity.
  destruct (Req_EM_T r r0); congruence.
Qed.

Lemma list_eqb_true {A} (eqb : A -> A -> bool) l1 l2 :
  (forall x y, eqb x y = true -> x = y) -> list_eqb eqb l1 l2 = true -> l1 = l2.
Proof.
  intros H. revert l2. induction l1 as [|x l1 IH]; intros [|y l2]; simpl;
    try discriminate; try reflexivity.
  rewrite andb_true_iff. intros [E1 E2]. f_equal; auto.
Qed.

Lemma arr_eqb_true a b : arr_eqb a b = true -> a = b.
Proof.
  destruct a as [sa da], b as [sb db]. unfold arr_eqb, list_nat_eqb; simpl.
  rewrite andb_true_iff. intros [E1 E2].
  destruct (list_eq_dec Nat.eq_dec sa sb) as [->|]; [|discriminate].
  f_equal. exact (list_eqb_true _ _ _ xr_eqb_true E2).
Qed.

Lemma key_eqb_true k1 k2 : key_eqb k1 k2 = true -> k1 = k2.
Proof.
  destruct k1, k2; simpl; try discriminate; rewrite ?andb_true_iff.
  - intros [E1 E2]. now rewrite (arr_eqb_true _ _ E1), (arr_eqb_true _ _ E2).
  - intros [[E1 E2] E3].
    now rewrite (arr_eqb_true _ _ E1), (arr_eqb_true _ _ E2), (xr_eqb_true _ _ E3).
Qed.


Lemma lookup_in k c v : cache_lookup k c = Some v -> In (k, v) c.
Proof.
  unfold cache_lookup.
  destruct (find (fun '(k', _) => key_eqb k k') c) as [[k' v']|] eqn:E; [|discriminate].
  intros [= <-]. apply find_some in E as [Hin Hk].
  rewrite (key_eqb_true _ _ Hk). exact Hin.
Qed.

Lemma memo_keeps (Q : key * quantity -> Prop) k f st :
  Forall Q (cache st) ->
  (forall v st', f st = (inr v, st') -> Q (k, v)) ->
  cache (snd (f st)) = cache st ->
  Forall Q (cache (snd (memo k f st))).
Proof.
  intros Hc Hf Hfc. unfold memo.
  destruct (cache_lookup k (cache st)) as [v|]; [exact Hc|].
  destruct (f st) as [[e|v] st'] eqn:E; simpl in Hfc |- *.
  - rewrite Hfc. exact Hc.
  - constructor; [eapply Hf; reflexivity | rewrite Hfc; exact Hc].
Qed.

Lemma memo_answer (Q : key * quantity -> Prop) k f st v st' :
  Forall Q (cache st) ->
  (forall v st', f st = (inr v, st') -> Q (k, v)) ->
  memo k f st = (inr v, st') -> Q (k, v).
Proof.
  intros Hc Hf. unfold memo.
  destruct (cache_lookup k (cache st)) as [w|] eqn:El.
  - intros [= <- _]. apply lookup_in in El.
    exact (proj1 (Forall_forall _ _) Hc _ El).
  - destruct (f st) as [[e|w] st''] eqn:E; [discriminate|].
    intros [= <- _]. eapply Hf. reflexivity.
Qed.

Lemma query_ok_amap lat lon (g : xr -> xr) :
  query_ok lat (amap g lon) = query_ok lat lon.
Proof. unfold query_ok, amap. simpl. rewrite length_map. reflexivity. Qed.

Lemma GState_eta st : mk_GState (model st) (cache st) (log st) = st.
Proof. destruct st; reflexivity. Qed.

Section CacheInvariant.

Variables Pr6_f Mt_f Beta_f : xr -> xr -> xr.

Lemma rpp_api_inv lat lon st :
  Forall (entry_ok Pr6_f Mt_f Beta_f) (cache st) ->
  Forall (entry_ok Pr6_f Mt_f Beta_f)
         (cache (snd (rain_percentage_probability_api Pr6_f Mt_f Beta_f lat lon st))) /\
  (forall v st', rain_percentage_probability_api Pr6_f Mt_f Beta_f lat lon st = (inr v, st') ->
                 entry_ok Pr6_f Mt_f Beta_f (KRpp lat lon, v)).
Proof.
  intros Hc. unfold rain_percentage_probability_api.
  match goal with |- context [memo ?k ?f st] =>
    assert (Hf : forall v st', f st = (inr v, st') -> entry_ok Pr6_f Mt_f Beta_f (k, v)) end.
  { intros v st'. unfold bind, run_log, ret, prepare_input_array.
    destruct (rain_percentage_probability Pr6_f Mt_f Beta_f lat (amap np_mod360 lon) (log st))
      as [[e|val] l] eqn:E; [discriminate|].
    intros [= <- _]. split.
    - simpl. rewrite (rpp_result _ _ _ _ _ _ _ _ E). reflexivity.
    - simpl. destruct (query_ok lat (amap np_mod360 lon)) eqn:Hq; [reflexivity|].
      destruct (bad_query_error Pr6_f Mt_f Beta_f lat (amap np_mod360 lon) zero (log st) Hq)
        as [[m E'] _].
      congruence. }
  split.
  - apply memo_keeps; [exact Hc | exact Hf | apply api_body_model].
  - intros v st'. apply memo_answer; [exact Hc | exact Hf].
Qed.

Lemma rr_api_inv lat lon p st :
  Forall (entry_ok Pr6_f Mt_f Beta_f) (cache st) ->
  Forall (entry_ok Pr6_f Mt_f Beta_f)
         (cache (snd (rainfall_rate_api Pr6_f Mt_f Beta_f lat lon p st))) /\
  (forall v st', rainfall_rate_api Pr6_f Mt_f Beta_f lat lon p st = (inr v, st') ->
                 entry_ok Pr6_f Mt_f Beta_f (KRr lat lon p, v)).
Proof.
  intros Hc. unfold rainfall_rate_api.
  match goal with |- context [memo ?k ?f st] =>
    assert (Hf : forall v st', f st = (inr v, st') -> entry_ok Pr6_f Mt_f Beta_f (k, v)) end.
  { intros v st'. unfold bind, run_log, ret, prepare_input_array.
    destruct (rainfall_rate Pr6_f Mt_f Beta_f lat (amap np_mod360 lon) p (log st))
      as [[e|val] l] eqn:E; [discriminate|].
    intros [= <- _]. split.
    - simpl. rewrite (rr_result _ _ _ _ _ _ _ _ _ E). reflexivity.
    - simpl. destruct (query_ok lat (amap np_mod360 lon)) eqn:Hq; [reflexivity|].
      destruct (bad_query_error Pr6_f Mt_f Beta_f lat (amap np_mod360 lon) p (log st) Hq)
        as [_ [m E']].
      congruence. }
  split.
  - apply memo_keeps; [exact Hc | exact Hf | apply api_body_model].
  - intros v st'. apply memo_answer; [exact Hc | exact Hf].
Qed.

Lemma reachable_cache_ok st :
  reachable Pr6_f Mt_f Beta_f st -> Forall (entry_ok Pr6_f Mt_f Beta_f) (cache st).
Proof.
  induction 1 as [|n st _ IH|st _ IH|lat lon st _ IH|lat lon p st _ IH|lat lon R st _ IH].
  - constructor.
  - rewrite change_version_cache. exact IH.
  - exact IH.
  - exact (proj1 (rpp_api_inv lat lon st IH)).
  - exact (proj1 (rr_api_inv lat lon p st IH)).
  - exact IH.
Qed.

Lemma reachable_no_bad_entry st k :
  reachable Pr6_f Mt_f Beta_f st -> key_query_ok k = false -> cache_lookup k (cache st) = None.
Proof.
  intros Hr Hk. destruct (cache_lookup k (cache st)) as [v|] eqn:El; [|reflexivity].
  apply lookup_in in El.
  destruct (proj1 (Forall_forall _ _) (reachable_cache_ok st Hr) _ El) as [_ H].
  simpl in H. congruence.
Qed.

(** In every state reached through the public functions, a successful call
    of [rain_percentage_probability] or [rainfall_rate] returns what the
    [_ITU837_6] model computes afresh for its arguments (longitude reduced
    modulo 360), whether it comes from the cache or not: no cache entry is
    stale, since [change_version] can only install version 6. *)
Theorem facade_returns_fresh_value st :
  reachable Pr6_f Mt_f Beta_f st ->
  (forall lat lon v st',
     rain_percentage_probability_api Pr6_f Mt_f Beta_f lat lon st = (inr v, st') ->
     v = (amap (P0_rpp_pt Pr6_f Mt_f Beta_f) (PTS lat (amap np_mod360 lon)), Pct)) /\
  (forall lat lon p v st',
     rainfall_rate_api Pr6_f Mt_f Beta_f lat lon p st = (inr v, st') ->
     v = (amap (rr_pt Pr6_f Mt_f Beta_f p) (PTS lat (amap np_mod360 lon)), MmPerHr)).
Proof.
  intros Hr. pose proof (reachable_cache_ok st Hr) as Hc. split.
  - intros lat lon v st' E. exact (proj1 (proj2 (rpp_api_inv lat lon st Hc) v st' E)).
  - intros lat lon p v st' E. exact (proj1 (proj2 (rr_api_inv lat lon p st Hc) v st' E)).
Qed.

(** In every state reached through the public functions, the module-level
    [rain_percentage_probability] and [rainfall_rate] raise [ValueError] on a
    query whose [lon] has not as many elements as [lat], and leave the state
    as it was: a failed call is never cached, so no later call is answered
    from the cache for such a query either. *)
Theorem facade_bad_query_raises st lat lon p :
  reachable Pr6_f Mt_f Beta_f st -> query_ok lat lon = false ->
  (exists msg, rain_percentage_probability_api Pr6_f Mt_f Beta_f lat lon st =
                 (inl (ValueError msg), st)) /\
  (exists msg, rainfall_rate_api Pr6_f Mt_f Beta_f lat lon p st = (inl (ValueError msg), st)).
Proof.
  intros Hr Hq. rewrite <- (query_ok_amap lat lon np_mod360) in Hq.
  destruct (bad_query_error Pr6_f Mt_f Beta_f lat (amap np_mod360 lon) p (log st) Hq)
    as [[m1 E1] [m2 E2]].
  split.
  - exists m1. unfold rain_percentage_probability_api, memo.
    rewrite (reachable_no_bad_entry st (KRpp lat lon) Hr Hq).
    unfold bind, run_log, prepare_input_array. rewrite E1, GState_eta. reflexivity.
  - exists m2. unfold rainfall_rate_api, memo.
    rewrite (reachable_no_bad_entry st (KRr lat lon p) Hr Hq).
    unfold bind, run_log, prepare_input_array. rewrite E2, GState_eta. reflexivity.
Qed.

End CacheInvariant.

(** ** Point values of the two methods *)

Lemma xdiv_fin a b : b <> 0 -> xdiv (Fin a) (Fin b) = Fin (a / b).
Proof.
  intros H. cbn [xdiv]. destruct (sign3_cases b) as [[_ ->]|[[E _]|[_ ->]]];
    [reflexivity | lra | reflexivity].
Qed.

Lemma xlog_pos a : 0 < a -> xlog (Fin a) = Fin (ln a).
Proof. intros H. cbn [xlog]. rewrite sign3_gt by exact H. reflexivity. Qed.

Lemma xsqrt_nonneg a : 0 <= a -> xsqrt (Fin a) = Fin (sqrt a).
Proof.
  intros H. cbn [xsqrt]. destruct (sign3_cases a) as [[E _]|[[_ ->]|[_ ->]]];
    [lra | reflexivity | reflexivity].
Qed.



Lemma Rp_b_fin q mc ms :
  0 < q -> Rp_b (Fin q) (Fin mc) (Fin ms) = Fin ((mc + ms) / (21797 * q)).
Proof. intros Hq. unfold Rp_b. cbn [xadd xmul]. apply xdiv_fin. lra. Qed.

(** [computeRp] at a point where [0 < p <= P0], with [Mc + Ms > 0]: every
    step stays finite and the result is the larger root of the quadratic. *)
Lemma computeRp_pt_fin x q mc ms :
  0 < q -> 0 < mc + ms -> 0 < x <= q ->
  exists bb A L B D,
    bb = (mc + ms) / (21797 * q) /\ A = 109 / 100 * bb /\ L = ln (x / q) /\
    B = 109 / 100 + 2602 / 100 * bb * L /\ D = B * B + - (4 * A * L) /\
    computeRp_pt (Fin x) (Fin q) (Fin mc) (Fin ms) = Fin ((- B + sqrt D) / (2 * A)) /\
    0 < bb /\ 0 < A /\ L <= 0 /\ B * B <= D.
Proof.
  intros Hq Hm [Hx0 Hx1].
  set (bb := (mc + ms) / (21797 * q)). set (A := 109 / 100 * bb).
  set (L := ln (x / q)). set (B := 109 / 100 + 2602 / 100 * bb * L).
  set (D := B * B + - (4 * A * L)).
  assert (Hbb : 0 < bb) by (apply Rdiv_lt_0_compat; lra).
  assert (HA : 0 < A) by (unfold A; lra).
  assert (HL : L <= 0).
  { unfold L. destruct (Req_dec x q) as [->|Hne].
    - unfold Rdiv. rewrite Rinv_r by lra. rewrite ln_1. lra.
    - rewrite <- ln_1. left. apply ln_increasing; [apply Rdiv_lt_0_compat; lra|].
      apply (Rmult_lt_reg_r q); [lra|]. unfold Rdiv.
      rewrite Rmult_assoc, Rinv_l by lra. lra. }
  assert (HD : B * B <= D) by (unfold D; nra).
  assert (HD0 : 0 <= D) by nra.
  exists bb, A, L, B, D. do 5 (split; [reflexivity|]).
  split; [|auto].
  assert (Eb : Rp_b (Fin q) (Fin mc) (Fin ms) = Fin bb) by (apply Rp_b_fin; exact Hq).
  assert (EL : xlog (xdiv (Fin x) (Fin q)) = Fin L).
  { rewrite xdiv_fin by lra. apply xlog_pos. apply Rdiv_lt_0_compat; lra. }
  unfold computeRp_pt, Rp_disc, Rp_B, Rp_A. rewrite Eb, EL. cbn [xmul xadd xsub xneg].
  rewrite xsqrt_nonneg by exact HD0. cbn [xadd xneg]. apply xdiv_fin. lra.
Qed.

Lemma rr_pt_valid Pr6_f Mt_f Beta_f pt q be mt x :
  P0_rr_pt Pr6_f Mt_f Beta_f pt = Fin q ->
  fld Beta_f pt = Fin be -> fld Mt_f pt = Fin mt -> x <= q ->
  rr_pt Pr6_f Mt_f Beta_f (Fin x) pt =
    computeRp_pt (Fin x) (Fin q) (Fin (be * mt)) (Fin ((1 + - be) * mt)).
Proof.
  intros HP HB HM Hx. unfold rr_pt. rewrite HP. cbn [xisnan xgt orb].
  destruct (sign3_cases (x - q)) as [[_ ->]|[[_ ->]|[E _]]]; [| |lra];
    unfold Mc_pt, Ms_pt, one; rewrite HB, HM; reflexivity.
Qed.




Lemma P0_rr_witness :
  P0_rr_pt field1 field1 field0 (Fin 0, Fin 0) = Fin (1 - exp (- (79 / 10000))) /\
  0 < 1 - exp (- (79 / 10000)).
Proof.
  assert (He : exp (- (79 / 10000)) < 1) by (rewrite <- exp_0; apply exp_increasing; lra).
  split; [|lra].
  unfold P0_rr_pt, P0_rpp_pt, exp_arg_pt, Ms_pt, c_0079, one, zero, field1, field0, fld.
  cbn [xgt xmul xsub xadd xneg]. rewrite sign3_gt by lra.
  rewrite xdiv_fin by lra. cbn [xexp xmul xsub xadd xneg]. f_equal.
  replace (- (79 / 10000) * ((1 + - 0) * 1 / 1)) with (- (79 / 10000)) by field. ring.
Qed.


Lemma Mt_sum be mt : be * mt + (1 + - be) * mt = mt.
Proof. ring. Qed.

(** [_ITU837_6.rain_percentage_probability] at a point where [Pr6 = 0] (with
    finite [Beta] and [Mt]): [Ms / Pr6] is an infinity or NaN and nothing
    guards it; the result is 0 only when [Ms = (1 - Beta) * Mt > 0], and NaN
    when [Ms <= 0]. *)
Theorem rpp_Pr6_zero_point Pr6_f Mt_f Beta_f pt be mt :
  fld Pr6_f pt = Fin 0 -> fld Beta_f pt = Fin be -> fld Mt_f pt = Fin mt ->
  P0_rpp_pt Pr6_f Mt_f Beta_f pt = if Rlt_dec 0 ((1 + - be) * mt) then Fin 0 else NaN.
Proof.
  intros HP HB HM.
  unfold P0_rpp_pt, exp_arg_pt, Ms_pt, c_0079, one. rewrite HP, HB, HM.
  cbn [xmul xsub xadd xneg xdiv]. rewrite (sign3_eq 0) by reflexivity.
  destruct (Rlt_dec 0 ((1 + - be) * mt)) as [Hm|Hm];
    sign_of ((1 + - be) * mt); try lra; cbn [xmul xsub xadd xneg xexp];
    unfold inf_times; rewrite ?(sign3_lt (- (79 / 10000))) by lra;
    cbn [xmul xsub xadd xneg xexp]; rewrite ?(sign3_eq 0) by reflexivity;
    try reflexivity.
  f_equal. ring.
Qed.

(** [_ITU837_6.rain_percentage_probability] at a point where [Pr6 > 0] and
    [Ms = (1 - Beta) * Mt >= 0] are finite: the result [P0] is finite and
    [0 <= P0 <= Pr6]. *)
Theorem rpp_point_bounds Pr6_f Mt_f Beta_f pt q be mt :
  fld Pr6_f pt = Fin q -> 0 < q -> fld Beta_f pt = Fin be -> fld Mt_f pt = Fin mt ->
  0 <= (1 + - be) * mt ->
  exists r, P0_rpp_pt Pr6_f Mt_f Beta_f pt = Fin r /\ 0 <= r <= q.
Proof.
  intros HP Hq HB HM Hm.
  unfold P0_rpp_pt, exp_arg_pt, Ms_pt, c_0079, one. rewrite HP, HB, HM.
  cbn [xmul xsub xadd xneg]. rewrite xdiv_fin by lra. cbn [xmul xsub xadd xneg xexp].
  eexists. split; [reflexivity|].
  set (a := - (79 / 10000) * ((1 + - be) * mt / q)).
  assert (Ha : a <= 0).
  { unfold a, Rdiv. assert (0 <= (1 + - be) * mt * / q)
      by (apply Rmult_le_pos; [exact Hm | left; apply Rinv_0_lt_compat; exact Hq]).
    lra. }
  assert (He1 : exp a <= 1).
  { rewrite <- exp_0. destruct Ha as [Ha|Ha]; [left; apply exp_increasing; exact Ha | right; rewrite Ha; reflexivity]. }
  pose proof (exp_pos a). nra.
Qed.

(** [_ITU837_6.rainfall_rate] at a point where [P0 > 0] and [Mt > 0]: at
    [p = P0] the result is exactly 0, so the rate joins continuously the 0
    that [np.where] returns for [p > P0]. *)
Theorem rr_zero_at_P0 Pr6_f Mt_f Beta_f pt q be mt :
  P0_rr_pt Pr6_f Mt_f Beta_f pt = Fin q -> 0 < q ->
  fld Beta_f pt = Fin be -> fld Mt_f pt = Fin mt -> 0 < mt ->
  rr_pt Pr6_f Mt_f Beta_f (Fin q) pt = Fin 0.
Proof.
  intros HP Hq HB HM Hm. rewrite (rr_pt_valid _ _ _ _ q be mt q HP HB HM) by lra.
  destruct (computeRp_pt_fin q q (be * mt) ((1 + - be) * mt))
    as (bb & A & L & B & D & Ebb & EA & EL & EB & ED & E & Hbb & HA & HL & HD);
    [lra | rewrite Mt_sum; lra | lra |].
  rewrite E. f_equal.
  assert (L0 : L = 0) by (rewrite EL; unfold Rdiv; rewrite Rinv_r by lra; apply ln_1).
  assert (EB' : B = 109 / 100) by (rewrite EB, L0; ring).
  assert (ED' : D = B * B) by (rewrite ED, L0; ring).
  rewrite ED', sqrt_square by lra. unfold Rdiv. ring.
Qed.



(** [_ITU837_6.rainfall_rate] at a point where [P0 > 0] and [Mt > 0]: at
    [p = 0], [log(p / P0)] is [-inf] and the result is [+inf]. *)
Theorem rr_infinite_at_p_zero Pr6_f Mt_f Beta_f pt q be mt :
  P0_rr_pt Pr6_f Mt_f Beta_f pt = Fin q -> 0 < q ->
  fld Beta_f pt = Fin be -> fld Mt_f pt = Fin mt -> 0 < mt ->
  rr_pt Pr6_f Mt_f Beta_f (Fin 0) pt = PInf.
Proof.
  intros HP Hq HB HM Hm. rewrite (rr_pt_valid _ _ _ _ q be mt 0 HP HB HM) by lra.
  unfold computeRp_pt, Rp_disc, Rp_B, Rp_A. rewrite Rp_b_fin by exact Hq.
  rewrite Mt_sum. rewrite xdiv_fin by lra. cbn [xlog].
  rewrite (sign3_eq (0 / q)) by (unfold Rdiv; ring).
  set (bb := mt / (21797 * q)).
  assert (Hbb : 0 < bb) by (apply Rdiv_lt_0_compat; lra).
  cbn [xmul xadd xsub xneg]. unfold inf_times. rewrite !sign3_gt by lra.
  cbn [xmul xadd xsub xneg xsqrt xdiv]. unfold inf_div. rewrite sign3_gt by lra.
  reflexivity.
Qed.


(** ** Witnesses of the further properties *)

Lemma methods_raise_on_bad_query_witness :
  query_ok lat1 (mk_arr [2%nat] [Fin 0; Fin 0]) = false /\
  (exists msg, rain_percentage_probability field1 field1 field0 lat1
                 (mk_arr [2%nat] [Fin 0; Fin 0]) [] = (inl (ValueError msg), [])) /\
  (exists msg, rainfall_rate field1 field1 field0 lat1
                 (mk_arr [2%nat] [Fin 0; Fin 0]) (Fin 1) [] = (inl (ValueError msg), [])).
Proof.
  split; [reflexivity|].
  apply (methods_raise_on_bad_query field1 field1 field0 lat1 (mk_arr [2%nat] [Fin 0; Fin 0])
           (Fin 1) []).
  reflexivity.
Defined.

Lemma reachable_version_6_witness :
  reachable field1 field1 field0
    (snd (rain_percentage_probability_api field1 field1 field0 lat1 lon1
            (snd (change_version 3 st0)))) /\
  fst (get_version (snd (rain_percentage_probability_api field1 field1 field0 lat1 lon1
                          (snd (change_version 3 st0))))) = inr 6%Z.
Proof.
  assert (H : reachable field1 field1 field0
                (snd (rain_percentage_probability_api field1 field1 field0 lat1 lon1
                        (snd (change_version 3 st0)))))
    by (apply reach_rpp, reach_change, reach_init).
  split; [exact H | exact (reachable_version_6 field1 field1 field0 _ H)].
Defined.

Lemma facade_returns_fresh_value_witness :
  reachable field1 field1 field0
    (snd (rain_percentage_probability_api field1 field1 field0 lat1 lon1
            (snd (change_version 3 st0)))) /\
  ((forall lat lon v st',
      rain_percentage_probability_api field1 field1 field0 lat lon
        (snd (rain_percentage_probability_api field1 field1 field0 lat1 lon1
                (snd (change_version 3 st0)))) = (inr v, st') ->
      v = (amap (P0_rpp_pt field1 field1 field0) (PTS lat (amap np_mod360 lon)), Pct)) /\
   (forall lat lon p v st',
      rainfall_rate_api field1 field1 field0 lat lon p
        (snd (rain_percentage_probability_api field1 field1 field0 lat1 lon1
                (snd (change_version 3 st0)))) = (inr v, st') ->
      v = (amap (rr_pt field1 field1 field0 p) (PTS lat (amap np_mod360 lon)), MmPerHr))).
Proof.
  assert (H : reachable field1 field1 field0
                (snd (rain_percentage_probability_api field1 field1 field0 lat1 lon1
                        (snd (change_version 3 st0)))))
    by (apply reach_rpp, reach_change, reach_init).
  split; [exact H | exact (facade_returns_fresh_value field1 field1 field0 _ H)].
Defined.

Lemma facade_bad_query_raises_witness :
  reachable field1 field1 field0
    (snd (rain_percentage_probability_api field1 field1 field0 lat1 lon1 st0)) /\
  query_ok lat1 (mk_arr [2%nat] [Fin 0; Fin 0]) = false /\
  (exists msg, rain_percentage_probability_api field1 field1 field0 lat1
                 (mk_arr [2%nat] [Fin 0; Fin 0])
                 (snd (rain_percentage_probability_api field1 field1 field0 lat1 lon1 st0)) =
               (inl (ValueError msg),
                snd (rain_percentage_probability_api field1 field1 field0 lat1 lon1 st0))) /\
  (exists msg, rainfall_rate_api field1 field1 field0 lat1 (mk_arr [2%nat] [Fin 0; Fin 0]) (Fin 1)
                 (snd (rain_percentage_probability_api field1 field1 field0 lat1 lon1 st0)) =
               (inl (ValueError msg),
                snd (rain_percentage_probability_api field1 field1 field0 lat1 lon1 st0))).
Proof.
  assert (H : reachable field1 field1 field0
                (snd (rain_percentage_probability_api field1 field1 field0 lat1 lon1 st0)))
    by (apply reach_rpp, reach_init).
  split; [exact H|]. split; [reflexivity|].
  exact (facade_bad_query_raises field1 field1 field0 _ lat1 (mk_arr [2%nat] [Fin 0; Fin 0])
           (Fin 1) H eq_refl).
Defined.

Lemma rpp_Pr6_zero_point_witness :
  fld field0 (Fin 0, Fin 0) = Fin 0 /\ fld field0 (Fin 0, Fin 0) = Fin 0 /\
  fld field1 (Fin 0, Fin 0) = Fin 1 /\
  P0_rpp_pt field0 field1 field0 (Fin 0, Fin 0) =
    if Rlt_dec 0 ((1 + - 0) * 1) then Fin 0 else NaN.
Proof.
  split; [reflexivity|]. split; [reflexivity|]. split; [reflexivity|].
  apply (rpp_Pr6_zero_point field0 field1 field0 (Fin 0, Fin 0) 0 1); reflexivity.
Defined.

Lemma rpp_point_bounds_witness :
  fld field1 (Fin 0, Fin 0) = Fin 1 /\ (0 < 1)%R /\ fld field0 (Fin 0, Fin 0) = Fin 0 /\
  fld field1 (Fin 0, Fin 0) = Fin 1 /\ 0 <= (1 + - 0) * 1 /\
  exists r, P0_rpp_pt field1 field1 field0 (Fin 0, Fin 0) = Fin r /\ 0 <= r <= 1.
Proof.
  split; [reflexivity|]. split; [lra|]. split; [reflexivity|]. split; [reflexivity|].
  split; [lra|].
  apply (rpp_point_bounds field1 field1 field0 (Fin 0, Fin 0) 1 0 1);
    [reflexivity | lra | reflexivity | reflexivity | lra].
Defined.

Lemma rr_zero_at_P0_witness :
  P0_rr_pt field1 field1 field0 (Fin 0, Fin 0) = Fin (1 - exp (- (79 / 10000))) /\
  0 < 1 - exp (- (79 / 10000)) /\
  rr_pt field1 field1 field0 (Fin (1 - exp (- (79 / 10000)))) (Fin 0, Fin 0) = Fin 0.
Proof.
  destruct P0_rr_witness as [HP Hq].
  split; [exact HP|]. split; [exact Hq|].
  apply (rr_zero_at_P0 field1 field1 field0 (Fin 0, Fin 0) _ 0 1 HP Hq);
    [reflexivity | reflexivity | lra].
Defined.



Lemma rr_infinite_at_p_zero_witness :
  P0_rr_pt field1 field1 field0 (Fin 0, Fin 0) = Fin (1 - exp (- (79 / 10000))) /\
  rr_pt field1 field1 field0 (Fin 0) (Fin 0, Fin 0) = PInf.
Proof.
  destruct P0_rr_witness as [HP Hq].
  split; [exact HP|].
  apply (rr_infinite_at_p_zero field1 field1 field0 (Fin 0, Fin 0) _ 0 1 HP Hq);
    [reflexivity | reflexivity | lra].
Defined.


Lemma rainfall_rate_valid_region_formula_witness :
  query_ok lat1 lon1 = true /\
  exists res,
    fst (rainfall_rate field1 field1 field0 lat1 lon1
           (Fin ((1 - exp (- (79 / 10000))) / 2)) []) = inr res /\
    nth_error (data res) 0 =
      Some (Rp_spec (Fin ((1 - exp (- (79 / 10000))) / 2)) (Fin (1 - exp (- (79 / 10000))))
                    (xmul (Fin 0) (Fin 1)) (xmul (xsub one (Fin 0)) (Fin 1))).
Proof.
  destruct P0_rr_witness as [HP Hq].
  split; [reflexivity|].
  destruct (rainfall_rate_valid_region_formula field1 field1 field0 lat1 lon1
              (Fin ((1 - exp (- (79 / 10000))) / 2)) [] query_ok_1) as (res & s' & E & H).
  exists res. rewrite E. split; [reflexivity|].
  specialize (H 0%nat (Fin 0) (Fin 0) eq_refl eq_refl). cbv zeta in H.
  rewrite HP in H. apply H.
  - unfold xle, xgt. rewrite sign3_lt by lra. reflexivity.
  - reflexivity.
Defined.

(** ** [np.mod(lon, 360)] on doubles *)











